(** * json_to_duckdb: flattening a JSON dictionary into one DuckDB table

  A shallow embedding of [json_to_duckdb.py] and the properties of its
  flattener, type inferencer and writer.

  Python values are an inductive type; Python dictionaries are
  insertion-ordered, so they are association lists whose keys are kept
  distinct by the update operation; the DuckDB connection is explicit
  state passing over a finite map of tables. *)

From Stdlib Require Import ZArith String Ascii List PrimFloat DecimalString.
From stdpp Require Import base option strings list gmap.

Set Warnings "-register-all".
Local Open Scope string_scope.
Local Open Scope list_scope.

(** ** Python values *)

(** The values [json.loads] produces ([None], [bool], [int], [float], [str],
  [list], [dict] with string keys), and [PObject] for every other Python
  object (a set, a class instance, ...), which [json.dumps] rejects. *)
Inductive pyval : Type :=
| PNone
| PBool (b : bool)
| PInt (n : Z)
| PFloat (x : float)
| PStr (s : string)
| PList (l : list pyval)
| PDict (d : list (string * pyval))
| PObject (descr : string).

(** ** Insertion-ordered dictionaries *)

Module Dict.
Section Dict.
Context {V : Type}.

(** [d.keys()] / iteration order. *)
Definition keys (d : list (string * V)) : list string := map fst d.

(** [d.get(k)]; [None] when the key is absent. *)
Fixpoint get (k : string) (d : list (string * V)) : option V :=
  match d with
  | [] => None
  | (k', v) :: d' => if decide (k = k') then Some v else get k d'
  end.

(** [k in d]. *)
Definition mem (k : string) (d : list (string * V)) : bool :=
  match get k d with Some _ => true | None => false end.

(** [d[k] = v]: an existing key keeps its position, a new key goes last. *)
Fixpoint set (k : string) (v : V) (d : list (string * V)) : list (string * V) :=
  match d with
  | [] => [(k, v)]
  | (k', v') :: d' =>
      if decide (k = k') then (k, v) :: d' else (k', v') :: set k v d'
  end.

(** [d.setdefault(k, v)], for its effect on [d]. *)
Definition setdefault (k : string) (v : V) (d : list (string * V))
  : list (string * V) :=
  match get k d with Some _ => d | None => set k v d end.
End Dict.
End Dict.

(** ** [json.dumps(v, ensure_ascii=False)] *)

(** What the program takes from Python itself: [float.__repr__] on finite
    floats, the builtin [str()], and [json.loads] ([None] is a
    [JSONDecodeError]). *)
Class Builtins := {
  float_repr : float -> string;
  py_str : pyval -> string;
  json_loads : string -> option pyval
}.

Section Program.
Context `{PY : Builtins}.

(** The one-character string holding a double quote. *)
Definition dquote : string := String (ascii_of_N 34) "".

Definition hex_digit (n : N) : ascii :=
  ascii_of_N (if (n <? 10)%N then 48 + n else 87 + n).

(** The encoder's escape table: backslash, double quote, the named control
    characters, and [\u00xx] for the other characters below 0x20. *)
Definition escape_char (c : ascii) : string :=
  let n := N_of_ascii c in
  if (n =? 34)%N then "\" +:+ dquote
  else if (n =? 92)%N then "\\"
  else if (n =? 10)%N then "\n"
  else if (n =? 13)%N then "\r"
  else if (n =? 9)%N then "\t"
  else if (n =? 8)%N then "\b"
  else if (n =? 12)%N then "\f"
  else if (n <? 32)%N then
    "\u00" +:+ String (hex_digit (n / 16)) (String (hex_digit (n mod 16)) "")
  else String c "".

Fixpoint escape_string (s : string) : string :=
  match s with
  | EmptyString => ""
  | String c s' => escape_char c +:+ escape_string s'
  end.

Definition encode_str (s : string) : string :=
  dquote +:+ escape_string s +:+ dquote.

(** [int.__repr__]: decimal digits, with a leading minus sign. *)
Definition int_repr (n : Z) : string := NilZero.string_of_int (Z.to_int n).

(** The encoder's [floatstr], with [allow_nan] left at its default. *)
Definition floatstr (x : float) : string :=
  if PrimFloat.is_nan x then "NaN"
  else if PrimFloat.eqb x infinity then "Infinity"
  else if PrimFloat.eqb x neg_infinity then "-Infinity"
  else float_repr x.

(** [sep.join(parts)]. *)
Fixpoint join (sep : string) (parts : list string) : string :=
  match parts with
  | [] => ""
  | [p] => p
  | p :: ps => p +:+ sep +:+ join sep ps
  end.

(** [json.dumps(v, ensure_ascii=False)] with the default separators;
    [None] stands for the [TypeError] raised on an object that is not
    serializable. *)
Fixpoint json_dumps (v : pyval) : option string :=
  match v with
  | PNone => Some "null"
  | PBool true => Some "true"
  | PBool false => Some "false"
  | PInt n => Some (int_repr n)
  | PFloat x => Some (floatstr x)
  | PStr s => Some (encode_str s)
  | PList l =>
      parts ← (fix dumps_items (l : list pyval) : option (list string) :=
                 match l with
                 | [] => Some []
                 | v :: l' =>
                     s ← json_dumps v; r ← dumps_items l'; Some (s :: r)
                 end) l;
      Some ("[" +:+ join ", " parts +:+ "]")
  | PDict d =>
      parts ← (fix dumps_pairs (d : list (string * pyval))
                 : option (list string) :=
                 match d with
                 | [] => Some []
                 | (k, v) :: d' =>
                     s ← json_dumps v; r ← dumps_pairs d';
                     Some ((encode_str k +:+ ": " +:+ s) :: r)
                 end) d;
      Some ("{" +:+ join ", " parts +:+ "}")
  | PObject _ => None
  end.

(** ** The type inferencer *)

Definition TYPE_ORDER : list string := ["BIGINT"; "DOUBLE"; "TEXT"].

Definition _is_int (x : pyval) : bool :=
  match x with PInt _ => true | _ => false end.

Definition _is_float (x : pyval) : bool :=
  match x with PFloat _ => true | _ => false end.

Definition is_str (x : pyval) : bool :=
  match x with PStr _ => true | _ => false end.

Definition _to_cell_value (v : pyval) : pyval * string :=
  match v with
  | PNone => (PNone, "TEXT")
  | _ =>
      if _is_int v then (v, "BIGINT")
      else if _is_float v then (v, "DOUBLE")
      else if is_str v then (v, "TEXT")
      else match json_dumps v with
           | Some s => (PStr s, "TEXT")
           | None => (PStr (py_str v), "TEXT")
           end
  end.

(** [{t: i for i, t in enumerate(TYPE_ORDER)}.get(t, dflt)]. *)
Fixpoint index_from (i : nat) (l : list string) (t : string) : option nat :=
  match l with
  | [] => None
  | t' :: l' => if decide (t = t') then Some i else index_from (S i) l' t
  end.

Definition order_get (t : string) (dflt : nat) : nat :=
  default dflt (index_from 0 TYPE_ORDER t).

(** [TYPE_ORDER[i]]; the index is at most 2 at its only use, so the
    [IndexError] branch (here the empty string) is never taken. *)
Definition type_order_at (i : nat) : string := nth i TYPE_ORDER "".

Definition _merge_type (t1 t2 : string) : string :=
  if decide (t1 = t2) then t1
  else type_order_at (Nat.max (order_get t1 2) (order_get t2 2)).

(** [_infer_schema]: the body of the inner loop, for one item [(k, v)] of
    the row being scanned; it rewrites the row in place and updates the
    column kinds. *)
Definition infer_cell (st : list (string * pyval) * list (string * string))
    (kv : string * pyval) : list (string * pyval) * list (string * string) :=
  let '(row, col_types) := st in
  let '(k, v) := kv in
  let '(val, t) := _to_cell_value v in
  let prev := Dict.get k col_types in
  (Dict.set k val row,
   Dict.set k (match prev with None => t | Some p => _merge_type p t end)
     col_types).

(** The inner loop [for k, v in row.items()]. *)
Definition infer_row (row : list (string * pyval))
    (col_types : list (string * string))
  : list (string * pyval) * list (string * string) :=
  fold_left infer_cell row (row, col_types).

(** The outer loop [for row in rows]. *)
Fixpoint infer_rows (rows : list (list (string * pyval)))
    (col_types : list (string * string))
  : list (list (string * pyval)) * list (string * string) :=
  match rows with
  | [] => ([], col_types)
  | row :: rest =>
      let '(row', ct) := infer_row row col_types in
      let '(rest', ct') := infer_rows rest ct in
      (row' :: rest', ct')
  end.

(** [_infer_schema] returns the column kinds; the rows it mutated are
    returned next to them. *)
Definition _infer_schema (rows : list (list (string * pyval)))
  : list (string * string) * list (list (string * pyval)) :=
  let '(rows', col_types) := infer_rows rows [] in (col_types, rows').

(** ** The flattener (first loop of [dict_to_duckdb]) *)

(** [for k, v in payload.items(): row[k] = v]. *)
Definition merge_payload (p row : list (string * pyval)) : list (string * pyval) :=
  fold_left (fun row kv => Dict.set kv.1 kv.2 row) p row.

Definition make_row (rec_id : string) (payload : pyval)
  : list (string * pyval) :=
  let row := [("record_id", PStr rec_id)] in
  match payload with
  | PDict p => merge_payload p row
  | _ => Dict.set "data" payload row
  end.

Definition flatten (dictionary : list (string * pyval))
  : list (list (string * pyval)) :=
  map (fun rp => make_row rp.1 rp.2) dictionary.

(** The fix-up after inference: "Ensure record_id exists and is TEXT". *)
Definition ensure_record_id (schema : list (string * string))
    (rows : list (list (string * pyval)))
  : list (string * string) * list (list (string * pyval)) :=
  if Dict.mem "record_id" schema
  then (Dict.set "record_id" "TEXT" schema, rows)
  else (Dict.set "record_id" "TEXT" schema,
        map (Dict.setdefault "record_id" PNone) rows).

(** ** The database *)

(** The engine is modelled as far as the program relies on it, and as an
    engine that accepts every statement.  A table has its columns (name and
    declared type, in order) and its rows, each row holding one cell per
    column; [PNone] is SQL NULL.  A cell is the Python value handed to the
    engine: the cast to the column's declared type is the engine's own and
    is left out, as are the statements the real engine refuses (an integer
    outside 64 bits, column names equal up to case, a name holding a double
    quote).  Column and table names stand for themselves.  A database file
    is a [gmap] from table names to tables, and the world a [gmap] from
    paths to database files.  What is stated of a table below is therefore
    stated for a run that leaves one, and what is stated of values is stated
    of the parameters the program hands over. *)
Record table := Table {
  tbl_columns : list (string * string);
  tbl_rows : list (list pyval)
}.

(** The exceptions a run can end with; [SystemError] is what [main] raises
    on a top level that is not a dictionary. *)
Inductive exn :=
| FileNotFoundError
| JSONDecodeError
| SystemError
| DuckDBError.

(** The two statements the program sends. *)
Inductive stmt :=
| CreateOrReplaceTable (tbl : string) (cols : list (string * string))
| InsertInto (tbl : string) (cols : list string).

(** The SQL text of a statement, as the f-strings build it. *)
Definition sql_text (q : stmt) : string :=
  match q with
  | CreateOrReplaceTable tbl cols =>
      "CREATE OR REPLACE TABLE " +:+ dquote +:+ tbl +:+ dquote +:+ " (" +:+
      join ", " (map (fun ct => dquote +:+ ct.1 +:+ dquote +:+ " " +:+ ct.2)
                   cols) +:+ ")"
  | InsertInto tbl cols =>
      "INSERT INTO " +:+ dquote +:+ tbl +:+ dquote +:+ " (" +:+
      join ", " (map (fun c => dquote +:+ c +:+ dquote) cols) +:+
      ") VALUES (" +:+ join ", " (map (fun _ => "?") cols) +:+ ")"
  end.

(** State and errors threaded through the calls on a connection. *)
Definition SE (S A : Type) : Type := S -> (exn + A) * S.

Definition ret {S A} (a : A) : SE S A := fun s => (inr a, s).
Definition raise {S A} (e : exn) : SE S A := fun s => (inl e, s).
Definition bind {S A B} (m : SE S A) (f : A -> SE S B) : SE S B :=
  fun s => match m s with
           | (inl e, s') => (inl e, s')
           | (inr a, s') => f a s'
           end.

Notation "m ;;; k" := (bind m (fun _ => k))
  (at level 100, k at level 200, right associativity).

(** Position of a column in an INSERT column list. *)
Fixpoint col_index (c : string) (cols : list string) : option nat :=
  match cols with
  | [] => None
  | c' :: cols' =>
      if decide (c = c') then Some 0 else S <$> col_index c cols'
  end.

(** The row an INSERT stores for one tuple of parameters: a listed column
    takes its parameter, an omitted column its default, NULL. *)
Definition stored_row (columns : list (string * string)) (cols : list string)
    (params : list pyval) : list pyval :=
  map (fun ct => match col_index ct.1 cols with
                 | Some i => default PNone (params !! i)
                 | None => PNone
                 end) columns.

(** [con.execute(sql)] for the CREATE statement: the table is replaced by
    an empty one with the given columns. *)
Definition con_execute (q : stmt) : SE (gmap string table) unit :=
  match q with
  | CreateOrReplaceTable tbl cols => fun db => (inr tt, <[tbl := Table cols []]> db)
  | InsertInto _ _ => raise DuckDBError
  end.

(** [con.executemany(sql, data)] for the INSERT statement: one stored row
    is appended per tuple; a missing table or an unknown column is an
    error of the engine. *)
Definition con_executemany (q : stmt) (data : list (list pyval))
  : SE (gmap string table) unit :=
  match q with
  | InsertInto tbl cols =>
      fun db =>
        match db !! tbl with
        | Some T =>
            if forallb (fun c => Dict.mem c (tbl_columns T)) cols
            then (inr tt,
                  <[tbl := Table (tbl_columns T)
                             (tbl_rows T ++
                              map (stored_row (tbl_columns T) cols) data)]> db)
            else (inl DuckDBError, db)
        | None => (inl DuckDBError, db)
        end
  | CreateOrReplaceTable _ _ => raise DuckDBError
  end.

(** [con.commit()]: statements already took effect as they ran. *)
Definition con_commit : SE (gmap string table) unit := ret tt.

(** ** The writer *)

Definition _create_or_replace_table (tbl : string)
    (schema : list (string * string)) : SE (gmap string table) unit :=
  con_execute (CreateOrReplaceTable tbl schema).

Definition _insert_rows (tbl : string) (rows : list (list (string * pyval)))
  : SE (gmap string table) unit :=
  match rows with
  | [] => ret tt
  | row0 :: _ =>
      let cols := Dict.keys row0 in
      let data :=
        map (fun r => map (fun c => default PNone (Dict.get c r)) cols) rows in
      con_executemany (InsertInto tbl cols) data
  end.

(** [duckdb.connect(path)] ... [finally: con.close()]: the body runs on the
    database stored at [path] (an empty one if the file is new); statements
    take effect as they run, and the file holds the result afterwards,
    whether the body failed or not. *)
Definition with_connection {A} (db_path : string) (body : SE (gmap string table) A)
  : SE (gmap string (gmap string table)) A :=
  fun w =>
    let '(r, db) := body (default ∅ (w !! db_path)) in
    (r, <[db_path := db]> w).

Definition dict_to_duckdb (db_path table_name : string)
    (dictionary : list (string * pyval))
  : SE (gmap string (gmap string table)) unit :=
  let rows := flatten dictionary in
  (* [rows = [dict(r) for r in rows]]: a copy of each row, which is the row
     itself here. *)
  let '(schema, rows) := _infer_schema rows in
  let '(schema, rows) := ensure_record_id schema rows in
  with_connection db_path
    (_create_or_replace_table table_name schema ;;;
     _insert_rows table_name rows ;;;
     con_commit).

(** ** The command line *)

Record args := Args { arg_json : string; arg_db : string; arg_table : string }.

(** [main] after argument parsing; [fs] gives the text of the files that
    exist.  A successful run returns the line it prints. *)
Definition main (fs : string -> option string) (a : args)
  : SE (gmap string (gmap string table)) string :=
  match fs (arg_json a) with
  | None => raise FileNotFoundError
  | Some text =>
      match json_loads text with
      | None => raise JSONDecodeError
      | Some (PDict data) =>
          dict_to_duckdb (arg_db a) (arg_table a) data ;;;
          ret ("Loaded '" +:+ arg_json a +:+ "' into " +:+ arg_db a +:+ ":" +:+
               arg_table a)
      | Some _ => raise SystemError
      end
  end.

(** The table a run of [dict_to_duckdb] leaves under [table_name] in the
    file [db_path]; [None] if the run failed or left no such table. *)
Definition loaded (db_path table_name : string)
    (dictionary : list (string * pyval)) (w : gmap string (gmap string table))
  : option table :=
  match dict_to_duckdb db_path table_name dictionary w with
  | (inr _, w') => w' !! db_path ≫= (fun db => db !! table_name)
  | (inl _, _) => None
  end.

(** ** The rows and schema handed to the writer *)

Definition prepared (dictionary : list (string * pyval))
  : list (string * string) * list (list (string * pyval)) :=
  let '(schema, rows) := _infer_schema (flatten dictionary) in
  ensure_record_id schema rows.

(** The keys of the first row, which [_insert_rows] lists in its INSERT. *)
Definition first_keys (rows : list (list (string * pyval))) : list string :=
  match rows with [] => [] | row0 :: _ => Dict.keys row0 end.

(** The parameter tuples [_insert_rows] hands to [executemany], one per
    row, each with one value per key of the first row. *)
Definition insert_params (rows : list (list (string * pyval)))
  : list (list pyval) :=
  map (fun r => map (fun c => default PNone (Dict.get c r)) (first_keys rows))
    rows.

(** The rows [_insert_rows] leaves in a freshly created table. *)
Definition stored_rows (schema : list (string * string))
    (rows : list (list (string * pyval))) : list (list pyval) :=
  map (fun r => stored_row schema (first_keys rows)
                  (map (fun c => default PNone (Dict.get c r)) (first_keys rows)))
    rows.

(** The values [json.loads] can produce: no foreign object anywhere. *)
Fixpoint is_json (v : pyval) : bool :=
  match v with
  | PList l => forallb is_json l
  | PDict d => forallb (fun kv => is_json kv.2) d
  | PObject _ => false
  | _ => true
  end.

(** ** The merge rule in the words of the specification *)

(** The rule as the specification words it: a strict total order
    BIGINT < DOUBLE < TEXT, the merged kind is the maximum of the two, and
    an unrecognized kind counts as TEXT. *)
Inductive kind := BIGINT | DOUBLE | TEXT.

Definition kind_name (k : kind) : string :=
  match k with BIGINT => "BIGINT" | DOUBLE => "DOUBLE" | TEXT => "TEXT" end.

Definition kind_of (t : string) : kind :=
  if decide (t = "BIGINT") then BIGINT
  else if decide (t = "DOUBLE") then DOUBLE
  else TEXT.

Definition kind_rank (k : kind) : nat :=
  match k with BIGINT => 0 | DOUBLE => 1 | TEXT => 2 end.

Definition kind_max (k1 k2 : kind) : kind :=
  if Nat.leb (kind_rank k1) (kind_rank k2) then k2 else k1.

Definition merge_spec (t1 t2 : string) : string :=
  kind_name (kind_max (kind_of t1) (kind_of t2)).

(** ** Notions used to describe the loaded table *)

(** A row with every value replaced by its cell value. *)
Definition coerce_row (row : list (string * pyval)) : list (string * pyval) :=
  map (fun kv => (kv.1, (_to_cell_value kv.2).1)) row.

(** The values a database cell can hold: null, integer, float, text. *)
Definition is_scalar (v : pyval) : bool :=
  match v with
  | PNone | PInt _ | PFloat _ | PStr _ => true
  | _ => false
  end.

(** The values a row gives for a field, and the values a column sees over
    all rows, in the order the inference loop meets them. *)
Fixpoint field_values (c : string) (row : list (string * pyval)) : list pyval :=
  match row with
  | [] => []
  | (k, v) :: row' =>
      if decide (k = c) then v :: field_values c row' else field_values c row'
  end.

Definition column_values (c : string) (rows : list (list (string * pyval)))
  : list pyval :=
  concat (map (field_values c) rows).

(** The kind of a column from the values it saw: BIGINT when all are
    integers, DOUBLE when all are integers or floats, TEXT otherwise. *)
Definition column_kind (vals : list pyval) : string :=
  if forallb _is_int vals then "BIGINT"
  else if forallb (fun v => _is_int v || _is_float v) vals then "DOUBLE"
  else "TEXT".


(** A kind is recognized when it is one of the three names. *)
Definition recognized (t : string) : Prop := t = kind_name (kind_of t).

End Program.

(** ** Sample builtins *)

(** Stand-ins for the Python builtins, to close the worked inputs at the
    end: [float.__repr__] knows the one float they print, [json.loads] the
    one text they parse. *)
Definition sample_builtins : Builtins := {|
  float_repr x := if PrimFloat.eqb x 2.5%float then "2.5" else "<float>";
  py_str _ := "<object>";
  json_loads text :=
    if decide (text = "[1, 2, 3]") then Some (PList [PInt 1; PInt 2; PInt 3])
    else None
|}.

Definition run_sample (dictionary : list (string * pyval)) : option table :=
  @loaded sample_builtins "queuedata.db" "queuedata" dictionary ∅.

(** Two records whose rows share the field [rate]. *)
Definition rate_input : list (string * pyval) :=
  [("q1", PDict [("rate", PInt 1)]); ("q2", PDict [("rate", PFloat 2.5)])].

(** Two records with different fields. *)
Definition mixed_input : list (string * pyval) :=
  [("q1", PDict [("a", PInt 1)]); ("q2", PDict [("b", PInt 2)])].

(** * Properties *)

Section Properties.
Context `{PY : Builtins}.

Notation "m ;;; k" := (bind m (fun _ => k))
  (at level 100, k at level 200, right associativity).

(** ** Dictionaries *)

Section DictFacts.
Context {V : Type}.
Implicit Types (d : list (string * V)) (k : string) (v : V).

Lemma dict_get_Some_keys k d : is_Some (Dict.get k d) <-> k ∈ Dict.keys d.
Proof.
  induction d as [|[k' v'] d IH]; simpl.
  - split; [intros [? ?]; discriminate | intros H; inversion H].
  - case_decide as E.
    + subst. split; [intros _; left | eauto].
    + rewrite IH. split; [by right|].
      intros H. inversion H; subst; [done | assumption].
Qed.

Lemma dict_mem_keys k d : Dict.mem k d = true <-> k ∈ Dict.keys d.
Proof.
  rewrite <- dict_get_Some_keys. unfold Dict.mem.
  destruct (Dict.get k d); split; eauto; try discriminate.
  intros [? ?]; discriminate.
Qed.

Lemma dict_mem_false_keys k d : Dict.mem k d = false <-> k ∉ Dict.keys d.
Proof.
  rewrite <- dict_mem_keys. destruct (Dict.mem k d); split; congruence.
Qed.

Lemma dict_get_set k' k v d :
  Dict.get k' (Dict.set k v d) = if decide (k' = k) then Some v else Dict.get k' d.
Proof.
  induction d as [|[k0 v0] d IH]; simpl.
  - reflexivity.
  - destruct (decide (k = k0)) as [->|E]; simpl.
    + repeat case_decide; congruence.
    + rewrite IH. repeat case_decide; congruence.
Qed.

Lemma dict_keys_set_in k v d :
  k ∈ Dict.keys d -> Dict.keys (Dict.set k v d) = Dict.keys d.
Proof.
  induction d as [|[k0 v0] d IH]; simpl; intros H.
  - inversion H.
  - case_decide as E; simpl; [by subst|].
    f_equal. apply IH. inversion H; subst; [done | assumption].
Qed.

Lemma dict_keys_set_notin k v d :
  k ∉ Dict.keys d -> Dict.keys (Dict.set k v d) = Dict.keys d ++ [k].
Proof.
  induction d as [|[k0 v0] d IH]; simpl; intros H.
  - reflexivity.
  - case_decide as E; simpl.
    + subst. exfalso. apply H. left.
    + f_equal. apply IH. intros Hin. apply H. by right.
Qed.

Lemma dict_elem_keys_set k' k v d :
  k' ∈ Dict.keys (Dict.set k v d) <-> k' = k \/ k' ∈ Dict.keys d.
Proof.
  rewrite <- !dict_get_Some_keys, dict_get_set.
  case_decide; split; eauto; intros [?|?]; eauto; congruence.
Qed.

Lemma dict_NoDup_set k v d :
  NoDup (Dict.keys d) -> NoDup (Dict.keys (Dict.set k v d)).
Proof.
  intros H. destruct (decide (k ∈ Dict.keys d)) as [Hin|Hin].
  - by rewrite dict_keys_set_in.
  - rewrite dict_keys_set_notin by done.
    apply NoDup_app. split; [done|]. split; [|apply NoDup_singleton].
    intros x Hx Hk. apply list_elem_of_singleton in Hk. by subst.
Qed.

Lemma dict_head_set k v d :
  d <> [] -> head (Dict.keys (Dict.set k v d)) = head (Dict.keys d).
Proof.
  destruct d as [|[k0 v0] d]; [done|]. intros _. simpl.
  by case_decide; subst.
Qed.

Lemma dict_set_nonempty k v d : Dict.set k v d <> [].
Proof. destruct d as [|[k0 v0] d]; simpl; [done|]. by case_decide. Qed.

End DictFacts.

(** ** The inference loops *)

#[local] Arguments infer_cell : simpl never.

Lemma infer_cell_eq row ct k v :
  infer_cell (row, ct) (k, v) =
    (Dict.set k (_to_cell_value v).1 row,
     Dict.set k (match Dict.get k ct with
                 | None => (_to_cell_value v).2
                 | Some p => _merge_type p (_to_cell_value v).2
                 end) ct).
Proof. unfold infer_cell. by destruct (_to_cell_value v). Qed.

Lemma infer_fold_row_keys items : forall row ct,
  (forall k, k ∈ Dict.keys items -> k ∈ Dict.keys row) ->
  Dict.keys (fold_left infer_cell items (row, ct)).1 = Dict.keys row.
Proof.
  induction items as [|[k v] items IH]; intros row ct Hsub; simpl; [done|].
  rewrite infer_cell_eq, IH.
  - apply dict_keys_set_in, Hsub. left.
  - intros k' Hk'. apply dict_elem_keys_set. right. apply Hsub. by right.
Qed.

Lemma infer_fold_schema_keys items : forall row ct c,
  c ∈ Dict.keys (fold_left infer_cell items (row, ct)).2 <->
  c ∈ Dict.keys ct \/ c ∈ Dict.keys items.
Proof.
  induction items as [|[k v] items IH]; intros row ct c; simpl.
  - split; [by left | intros [?|H]; [done | inversion H]].
  - rewrite infer_cell_eq, IH, dict_elem_keys_set.
    split.
    + intros [[->|?]|?]; [right; left | by left | right; by right].
    + intros [?|H]; [left; by right|].
      inversion H; subst; [left; by left | by right].
Qed.

Lemma infer_fold_schema_head items : forall row ct,
  ct <> [] ->
  head (Dict.keys (fold_left infer_cell items (row, ct)).2) = head (Dict.keys ct).
Proof.
  induction items as [|[k v] items IH]; intros row ct Hne; simpl; [done|].
  rewrite infer_cell_eq, IH by apply dict_set_nonempty.
  by apply dict_head_set.
Qed.

Lemma infer_fold_schema_NoDup items : forall row ct,
  NoDup (Dict.keys ct) ->
  NoDup (Dict.keys (fold_left infer_cell items (row, ct)).2).
Proof.
  induction items as [|[k v] items IH]; intros row ct Hnd; simpl; [done|].
  rewrite infer_cell_eq. by apply IH, dict_NoDup_set.
Qed.

Lemma infer_row_keys row ct : Dict.keys (infer_row row ct).1 = Dict.keys row.
Proof. by apply infer_fold_row_keys. Qed.

Lemma infer_row_first_column k v row ct :
  head (Dict.keys (infer_row ((k, v) :: row) ct).2) =
    match ct with [] => Some k | _ => head (Dict.keys ct) end.
Proof.
  unfold infer_row. simpl. rewrite infer_cell_eq.
  rewrite infer_fold_schema_head by apply dict_set_nonempty.
  destruct ct as [|[k0 t0] ct]; [done|].
  by apply dict_head_set.
Qed.

Lemma infer_rows_keys rows : forall ct,
  map Dict.keys (infer_rows rows ct).1 = map Dict.keys rows.
Proof.
  induction rows as [|row rows IH]; intros ct; simpl; [done|].
  destruct (infer_row row ct) as [row' ct1] eqn:E1.
  specialize (IH ct1). destruct (infer_rows rows ct1) as [rest' ct2].
  simpl in *. rewrite IH. f_equal.
  change row' with (row', ct1).1. rewrite <- E1. apply infer_row_keys.
Qed.

Lemma infer_rows_schema_keys rows : forall ct c,
  c ∈ Dict.keys (infer_rows rows ct).2 <->
  c ∈ Dict.keys ct \/ exists row, row ∈ rows /\ c ∈ Dict.keys row.
Proof.
  induction rows as [|row rows IH]; intros ct c; simpl.
  - split; [by left | intros [?|(r & H & _)]; [done | inversion H]].
  - destruct (infer_row row ct) as [row' ct1] eqn:E1.
    specialize (IH ct1 c). destruct (infer_rows rows ct1) as [rest' ct2].
    simpl in *. rewrite IH.
    change ct1 with (row', ct1).2. rewrite <- E1.
    unfold infer_row. rewrite infer_fold_schema_keys.
    split.
    + intros [[?|?]|(r & Hr & Hc)]; [by left | | ].
      * right. exists row. split; [left | done].
      * right. exists r. split; [by right | done].
    + intros [?|(r & Hr & Hc)]; [left; by left|].
      inversion Hr; subst; [left; by right | right; eauto].
Qed.

Lemma infer_rows_schema_head rows : forall ct,
  ct <> [] ->
  head (Dict.keys (infer_rows rows ct).2) = head (Dict.keys ct).
Proof.
  induction rows as [|row rows IH]; intros ct Hne; simpl; [done|].
  destruct (infer_row row ct) as [row' ct1] eqn:E1.
  assert (H1 : head (Dict.keys ct1) = head (Dict.keys ct)).
  { change ct1 with (row', ct1).2. rewrite <- E1.
    by apply infer_fold_schema_head. }
  assert (Hne1 : ct1 <> []).
  { intros ->. destruct ct as [|[? ?] ?]; [done | discriminate]. }
  specialize (IH ct1 Hne1). destruct (infer_rows rows ct1) as [rest' ct2].
  simpl in *. congruence.
Qed.

Lemma infer_rows_schema_NoDup rows : forall ct,
  NoDup (Dict.keys ct) -> NoDup (Dict.keys (infer_rows rows ct).2).
Proof.
  induction rows as [|row rows IH]; intros ct Hnd; simpl; [done|].
  destruct (infer_row row ct) as [row' ct1] eqn:E1.
  assert (H1 : NoDup (Dict.keys ct1)).
  { change ct1 with (row', ct1).2. rewrite <- E1.
    by apply infer_fold_schema_NoDup. }
  specialize (IH ct1 H1). by destruct (infer_rows rows ct1).
Qed.

Lemma infer_schema_eq rows :
  _infer_schema rows = ((infer_rows rows []).2, (infer_rows rows []).1).
Proof. unfold _infer_schema. by destruct (infer_rows rows []). Qed.

(** ** The flattener *)

Lemma merge_payload_keys p : forall row c,
  c ∈ Dict.keys (merge_payload p row) <-> c ∈ Dict.keys row \/ c ∈ Dict.keys p.
Proof.
  unfold merge_payload.
  induction p as [|[k v] p IH]; intros row c; simpl.
  - split; [by left | intros [?|H]; [done | inversion H]].
  - rewrite IH, dict_elem_keys_set. split.
    + intros [[->|?]|?]; [right; left | by left | right; by right].
    + intros [?|H]; [left; by right|].
      inversion H; subst; [left; by left | by right].
Qed.

Lemma merge_payload_head p : forall row,
  row <> [] -> head (Dict.keys (merge_payload p row)) = head (Dict.keys row).
Proof.
  unfold merge_payload.
  induction p as [|[k v] p IH]; intros row Hne; simpl; [done|].
  rewrite IH by apply dict_set_nonempty. by apply dict_head_set.
Qed.

Lemma merge_payload_NoDup p : forall row,
  NoDup (Dict.keys row) -> NoDup (Dict.keys (merge_payload p row)).
Proof.
  unfold merge_payload.
  induction p as [|[k v] p IH]; intros row Hnd; simpl; [done|].
  by apply IH, dict_NoDup_set.
Qed.

(** Last write wins: a payload field overrides what the row held. *)
Lemma merge_payload_get p : forall row c,
  NoDup (Dict.keys p) ->
  Dict.get c (merge_payload p row) =
    match Dict.get c p with Some v => Some v | None => Dict.get c row end.
Proof.
  unfold merge_payload.
  induction p as [|[k v] p IH]; intros row c Hnd; simpl; [done|].
  apply NoDup_cons in Hnd as [Hk Hnd]. rewrite IH by done.
  rewrite dict_get_set. case_decide as E; [|done].
  subst. destruct (Dict.get k p) as [v0|] eqn:G; [|done].
  exfalso. apply Hk. apply dict_get_Some_keys. by exists v0.
Qed.

Lemma make_row_dict rec_id p :
  make_row rec_id (PDict p) = merge_payload p [("record_id", PStr rec_id)].
Proof. reflexivity. Qed.


Lemma make_row_head rec_id payload :
  head (Dict.keys (make_row rec_id payload)) = Some "record_id".
Proof.
  destruct payload; try reflexivity.
  rewrite make_row_dict. by rewrite merge_payload_head.
Qed.

Lemma make_row_NoDup rec_id payload : NoDup (Dict.keys (make_row rec_id payload)).
Proof.
  destruct payload;
    try (apply (dict_NoDup_set (V:=pyval)), NoDup_singleton).
  rewrite make_row_dict. apply merge_payload_NoDup, NoDup_singleton.
Qed.

Lemma flatten_lookup dictionary i rec_id payload :
  dictionary !! i = Some (rec_id, payload) ->
  flatten dictionary !! i = Some (make_row rec_id payload).
Proof. intros H. unfold flatten. by rewrite list_lookup_fmap, H. Qed.

Lemma prepared_nil : prepared [] = ([("record_id", "TEXT")], []).
Proof. reflexivity. Qed.

Lemma inferred_has_record_id rp dictionary :
  Dict.mem "record_id" (_infer_schema (flatten (rp :: dictionary))).1 = true.
Proof.
  rewrite infer_schema_eq. cbn [fst].
  apply dict_mem_keys, infer_rows_schema_keys. right.
  exists (make_row rp.1 rp.2). split; [left|].
  apply (dict_get_Some_keys (V:=pyval)).
  pose proof (make_row_head rp.1 rp.2) as H.
  destruct (make_row rp.1 rp.2) as [|[k v] r]; [discriminate|].
  simpl in H. injection H as ->. simpl. eauto.
Qed.

Lemma prepared_cons rp dictionary :
  prepared (rp :: dictionary) =
    (Dict.set "record_id" "TEXT" (_infer_schema (flatten (rp :: dictionary))).1,
     (_infer_schema (flatten (rp :: dictionary))).2).
Proof.
  unfold prepared. pose proof (inferred_has_record_id rp dictionary) as H.
  destruct (_infer_schema (flatten (rp :: dictionary))) as [schema rows].
  unfold ensure_record_id. simpl in *. by rewrite H.
Qed.

Lemma prepared_rows dictionary :
  (prepared dictionary).2 = (_infer_schema (flatten dictionary)).2.
Proof.
  destruct dictionary as [|rp dictionary]; [done|]. by rewrite prepared_cons.
Qed.

Lemma prepared_rows_keys dictionary :
  map Dict.keys (prepared dictionary).2 = map Dict.keys (flatten dictionary).
Proof.
  rewrite prepared_rows, infer_schema_eq. apply infer_rows_keys.
Qed.

Lemma prepared_schema_keys dictionary c :
  c ∈ Dict.keys (prepared dictionary).1 <->
  c = "record_id" \/ exists row, row ∈ flatten dictionary /\ c ∈ Dict.keys row.
Proof.
  destruct dictionary as [|rp dictionary].
  - rewrite prepared_nil. simpl. split.
    + intros H. apply list_elem_of_singleton in H. by left.
    + intros [->|(r & H & _)]; [left | inversion H].
  - rewrite prepared_cons. cbn [fst].
    rewrite dict_elem_keys_set, infer_schema_eq. cbn [fst].
    rewrite infer_rows_schema_keys. split.
    + intros [?|[H|?]]; [by left | inversion H | by right].
    + intros [?|?]; [by left | right; by right].
Qed.

Lemma prepared_first_keys dictionary :
  first_keys (prepared dictionary).2 = first_keys (flatten dictionary).
Proof.
  pose proof (prepared_rows_keys dictionary) as H.
  destruct (prepared dictionary).2, (flatten dictionary); try done.
  simpl in *. by injection H.
Qed.

(** ** The writer *)

Lemma col_index_Some c cols : forall i,
  col_index c cols = Some i -> cols !! i = Some c.
Proof.
  induction cols as [|c' cols IH]; intros i; simpl; [done|].
  case_decide as E.
  - intros [= <-]. by subst.
  - destruct (col_index c cols) as [j|]; [|done].
    intros [= <-]. simpl. by apply IH.
Qed.

Lemma col_index_None c cols : col_index c cols = None <-> c ∉ cols.
Proof.
  induction cols as [|c' cols IH]; simpl.
  - split; [intros _ H; inversion H | done].
  - case_decide as E.
    + subst. split; [done | intros H; destruct H; left].
    + destruct (col_index c cols) as [j|]; simpl.
      * split; [done|]. intros H. exfalso. apply H. right.
        apply dec_stable. intros Hn. by apply IH in Hn.
      * split; [|done]. intros _ H.
        inversion H; subst; [done|]. by apply IH in H2.
Qed.

(** A stored cell is the row's own value when the column is listed by the
    INSERT (null if the row lacks it), and null when it is not listed. *)
Lemma stored_row_cells (f : string -> pyval) schema cols :
  stored_row schema cols (map f cols) =
    map (fun ct => if bool_decide (ct.1 ∈ cols) then f ct.1 else PNone) schema.
Proof.
  unfold stored_row. apply map_ext. intros [c ty]. simpl.
  destruct (col_index c cols) as [i|] eqn:E.
  - pose proof (col_index_Some _ _ _ E) as Hi.
    rewrite bool_decide_eq_true_2 by (eapply list_elem_of_lookup_2; eauto).
    change (map f cols) with (f <$> cols).
    by rewrite list_lookup_fmap, Hi.
  - apply col_index_None in E. by rewrite bool_decide_eq_false_2.
Qed.

Lemma stored_rows_cells schema rows :
  stored_rows schema rows =
    map (fun r => map (fun ct => if bool_decide (ct.1 ∈ first_keys rows)
                                 then default PNone (Dict.get ct.1 r)
                                 else PNone) schema) rows.
Proof.
  unfold stored_rows. apply map_ext. intros r.
  apply (stored_row_cells (fun c => default PNone (Dict.get c r))).
Qed.

Lemma insert_rows_nil tbl db : _insert_rows tbl [] db = (inr tt, db).
Proof. reflexivity. Qed.

Lemma writer_run tbl schema rows (db : gmap string table) :
  (forall c, c ∈ first_keys rows -> c ∈ Dict.keys schema) ->
  (_create_or_replace_table tbl schema ;;; _insert_rows tbl rows ;;; con_commit) db =
    (inr tt, <[tbl := Table schema (stored_rows schema rows)]> db).
Proof.
  intros Hsub. unfold bind, _create_or_replace_table, con_execute, con_commit.
  destruct rows as [|row0 rows]; [done|].
  unfold _insert_rows, con_executemany. rewrite lookup_insert_eq.
  cbn [tbl_columns tbl_rows].
  assert (Hall : forallb (fun c => Dict.mem c schema) (Dict.keys row0) = true).
  { apply forallb_forall. intros c Hc. apply dict_mem_keys, Hsub.
    by apply list_elem_of_In. }
  rewrite Hall, insert_insert_eq.
  unfold ret, stored_rows, first_keys. by rewrite app_nil_l, map_map.
Qed.

Lemma prepared_first_keys_in dictionary c :
  c ∈ first_keys (prepared dictionary).2 -> c ∈ Dict.keys (prepared dictionary).1.
Proof.
  rewrite prepared_first_keys, prepared_schema_keys. intros H. right.
  destruct (flatten dictionary) as [|row0 rows]; [inversion H|].
  exists row0. split; [left | done].
Qed.

Lemma dict_to_duckdb_eq db_path table_name dictionary :
  dict_to_duckdb db_path table_name dictionary =
    with_connection db_path
      (_create_or_replace_table table_name (prepared dictionary).1 ;;;
       _insert_rows table_name (prepared dictionary).2 ;;; con_commit).
Proof.
  unfold dict_to_duckdb, prepared.
  destruct (_infer_schema (flatten dictionary)) as [schema rows].
  by destruct (ensure_record_id schema rows).
Qed.

(** Every run succeeds and leaves exactly this table. *)
Lemma dict_to_duckdb_run db_path table_name dictionary
    (w : gmap string (gmap string table)) :
  dict_to_duckdb db_path table_name dictionary w =
    (inr tt,
     <[db_path :=
         <[table_name :=
             Table (prepared dictionary).1
               (stored_rows (prepared dictionary).1 (prepared dictionary).2)]>
           (default ∅ (w !! db_path))]> w).
Proof.
  rewrite dict_to_duckdb_eq. unfold with_connection.
  by rewrite writer_run by apply prepared_first_keys_in.
Qed.

Lemma loaded_eq db_path table_name dictionary
    (w : gmap string (gmap string table)) :
  loaded db_path table_name dictionary w =
    Some (Table (prepared dictionary).1
            (stored_rows (prepared dictionary).1 (prepared dictionary).2)).
Proof.
  unfold loaded. rewrite dict_to_duckdb_run.
  rewrite lookup_insert_eq. simpl. by rewrite lookup_insert_eq.
Qed.

(** ** Merging column kinds *)

Lemma order_get_rank t : order_get t 2 = kind_rank (kind_of t).
Proof.
  unfold order_get, kind_of, TYPE_ORDER, index_from.
  repeat case_decide; subst; done.
Qed.

Lemma type_order_at_rank k : type_order_at (kind_rank k) = kind_name k.
Proof. by destruct k. Qed.

Lemma kind_rank_max k1 k2 :
  Nat.max (kind_rank k1) (kind_rank k2) = kind_rank (kind_max k1 k2).
Proof. by destruct k1, k2. Qed.

Lemma kind_of_name k : kind_of (kind_name k) = k.
Proof. by destruct k. Qed.

Lemma merge_type_cases t1 t2 :
  _merge_type t1 t2 = if decide (t1 = t2) then t1 else merge_spec t1 t2.
Proof.
  unfold _merge_type, merge_spec. case_decide; [done|].
  by rewrite !order_get_rank, kind_rank_max, type_order_at_rank.
Qed.

Lemma merge_type_max t1 t2 :
  t1 <> t2 \/ recognized t1 -> _merge_type t1 t2 = merge_spec t1 t2.
Proof.
  rewrite merge_type_cases. case_decide as E; [|done].
  intros [?|H]; [done|]. subst t2. unfold merge_spec.
  by destruct (kind_of t1) eqn:K; rewrite H, K.
Qed.

Lemma kind_of_merge t1 t2 :
  kind_of (_merge_type t1 t2) = kind_max (kind_of t1) (kind_of t2).
Proof.
  rewrite merge_type_cases. case_decide as E.
  - subst. by destruct (kind_of t2).
  - apply kind_of_name.
Qed.

Lemma merge_type_recognized t1 t2 : t1 <> t2 -> recognized (_merge_type t1 t2).
Proof.
  intros H. unfold recognized. rewrite kind_of_merge.
  rewrite merge_type_max by by left. reflexivity.
Qed.

Lemma merge_type_idem t : _merge_type t t = t.
Proof. unfold _merge_type. by rewrite decide_True. Qed.

Lemma kind_max_assoc k1 k2 k3 :
  kind_max (kind_max k1 k2) k3 = kind_max k1 (kind_max k2 k3).
Proof. by destruct k1, k2, k3. Qed.

Lemma kind_max_comm k1 k2 : kind_max k1 k2 = kind_max k2 k1.
Proof. by destruct k1, k2. Qed.

Lemma merge_type_comm t1 t2 : _merge_type t1 t2 = _merge_type t2 t1.
Proof.
  rewrite !merge_type_cases. repeat case_decide; try congruence.
  unfold merge_spec. by rewrite kind_max_comm.
Qed.

Lemma merge_type_assoc t1 t2 t3 :
  _merge_type (_merge_type t1 t2) t3 = _merge_type t1 (_merge_type t2 t3).
Proof.
  destruct (decide (t1 = t2 /\ t2 = t3)) as [[-> ->]|Hne].
  { by rewrite !merge_type_idem. }
  assert (L : _merge_type (_merge_type t1 t2) t3 =
              merge_spec (_merge_type t1 t2) t3).
  { apply merge_type_max. destruct (decide (t1 = t2)) as [->|E].
    - rewrite merge_type_idem. left. intros ->. by apply Hne.
    - right. by apply merge_type_recognized. }
  assert (R : _merge_type t1 (_merge_type t2 t3) =
              merge_spec t1 (_merge_type t2 t3)).
  { apply merge_type_max. destruct (decide (t2 = t3)) as [->|E].
    - rewrite merge_type_idem. left. intros ->. by apply Hne.
    - destruct (decide (t1 = _merge_type t2 t3)) as [->|E'].
      + right. by apply merge_type_recognized.
      + by left. }
  rewrite L, R. unfold merge_spec.
  by rewrite !kind_of_merge, kind_max_assoc.
Qed.

Lemma merge_type_TEXT_r t : _merge_type t "TEXT" = "TEXT".
Proof.
  rewrite merge_type_cases. case_decide; [done|].
  unfold merge_spec. by destruct (kind_of t).
Qed.

(** C3 (as amended): on the three kinds BIGINT < DOUBLE < TEXT the merge is
    max; on arbitrary kind strings it returns the common value when both are
    equal (recognized or not) and otherwise max with every unrecognized kind
    treated as TEXT; it is associative, commutative and idempotent,
    BIGINT merged with DOUBLE is DOUBLE, and TEXT absorbs every kind. *)
Theorem merge_type_laws :
  (forall k1 k2 : kind,
     _merge_type (kind_name k1) (kind_name k2) = kind_name (kind_max k1 k2)) /\
  (forall t1 t2 : string,
     _merge_type t1 t2 = if decide (t1 = t2) then t1 else merge_spec t1 t2) /\
  (forall t1 t2 t3 : string,
     _merge_type (_merge_type t1 t2) t3 = _merge_type t1 (_merge_type t2 t3)) /\
  (forall t1 t2 : string, _merge_type t1 t2 = _merge_type t2 t1) /\
  (forall t : string, _merge_type t t = t) /\
  _merge_type "BIGINT" "DOUBLE" = "DOUBLE" /\
  (forall t : string,
     _merge_type t "TEXT" = "TEXT" /\ _merge_type "TEXT" t = "TEXT").
Proof.
  split; [by intros [] []|].
  split; [apply merge_type_cases|].
  split; [apply merge_type_assoc|].
  split; [apply merge_type_comm|].
  split; [apply merge_type_idem|].
  split; [reflexivity|].
  intros t. split; [|rewrite merge_type_comm]; apply merge_type_TEXT_r.
Qed.

(** C3, the claim as stated fails: two equal unrecognized kinds merge to
    themselves, not to TEXT. *)
Lemma merge_type_unrecognized_pair :
  _merge_type "FOO" "FOO" = "FOO" /\ merge_spec "FOO" "FOO" = "TEXT" /\
  _merge_type "FOO" "FOO" <> merge_spec "FOO" "FOO".
Proof. repeat split; [reflexivity..|discriminate]. Qed.

(** ** Classifying one value *)

Lemma json_dumps_total : forall v, is_json v = true -> is_Some (json_dumps v).
Proof.
  fix IH 1. intros [ | [|] | n | x | s | l | d | o ] H; simpl in *; eauto.
  - assert (Hl : is_Some
      ((fix dumps_items (l : list pyval) : option (list string) :=
          match l with
          | [] => Some []
          | v :: l' => s ← json_dumps v; r ← dumps_items l'; Some (s :: r)
          end) l)).
    { induction l as [|v l IHl]; [by eexists|].
      simpl in H. apply andb_prop in H as [Hv Hl].
      destruct (IH v Hv) as [sv Ev]. destruct (IHl Hl) as [sl El].
      rewrite Ev, El. by eexists. }
    destruct Hl as [parts ->]. by eexists.
  - assert (Hd : is_Some
      ((fix dumps_pairs (d : list (string * pyval)) : option (list string) :=
          match d with
          | [] => Some []
          | (k, v) :: d' =>
              s ← json_dumps v; r ← dumps_pairs d';
              Some ((encode_str k +:+ ": " +:+ s) :: r)
          end) d)).
    { induction d as [|[k v] d IHd]; [by eexists|].
      simpl in H. apply andb_prop in H as [Hv Hd].
      destruct (IH v Hv) as [sv Ev]. destruct (IHd Hd) as [sd Ed].
      rewrite Ev, Ed. by eexists. }
    destruct Hd as [parts ->]. by eexists.
  - discriminate.
Qed.

(** C2: the per-value classification.  Null is (null, TEXT); an integer is
    itself with BIGINT; a float is itself with DOUBLE; a string is itself
    with TEXT; every other value (boolean, list, nested object, foreign
    object) becomes the text of its JSON serialization, or of [str()] when
    serialization fails, with TEXT.  Serialization succeeds on every JSON
    value and fails on a foreign object; a boolean is never BIGINT. *)
Theorem to_cell_value_classification :
  _to_cell_value PNone = (PNone, "TEXT") /\
  (forall n, _to_cell_value (PInt n) = (PInt n, "BIGINT")) /\
  (forall x, _to_cell_value (PFloat x) = (PFloat x, "DOUBLE")) /\
  (forall s, _to_cell_value (PStr s) = (PStr s, "TEXT")) /\
  (forall v,
     match v with
     | PBool _ | PList _ | PDict _ | PObject _ =>
         _to_cell_value v =
           (PStr (match json_dumps v with Some s => s | None => py_str v end),
            "TEXT")
     | _ => True
     end) /\
  (forall v, is_json v = true -> is_Some (json_dumps v)) /\
  (forall o, _to_cell_value (PObject o) = (PStr (py_str (PObject o)), "TEXT")) /\
  (forall b,
     _to_cell_value (PBool b) = (PStr (if b then "true" else "false"), "TEXT") /\
     (_to_cell_value (PBool b)).2 <> "BIGINT").
Proof.
  repeat split; try done.
  - intros [ | b | n | x | s | l | d | o ]; try done;
      unfold _to_cell_value; simpl _is_int; simpl _is_float; simpl is_str;
      cbv iota; by destruct (json_dumps _).
  - apply json_dumps_total.
  - by destruct b.
  - by destruct b.
Qed.

(** ** Once TEXT, always TEXT *)






Lemma infer_schema_head k v row rows :
  head (Dict.keys (_infer_schema (((k, v) :: row) :: rows)).1) = Some k.
Proof.
  rewrite infer_schema_eq. cbn [fst]. simpl.
  pose proof (infer_row_first_column k v row []) as H0.
  destruct (infer_row ((k, v) :: row) []) as [row' ct1] eqn:E1.
  cbn [snd] in H0.
  assert (Hne : ct1 <> []) by (intros ->; discriminate).
  pose proof (infer_rows_schema_head rows ct1 Hne) as H1.
  destruct (infer_rows rows ct1) as [rest' ct2]. simpl in *. congruence.
Qed.

Lemma prepared_head dictionary :
  head (Dict.keys (prepared dictionary).1) = Some "record_id".
Proof.
  destruct dictionary as [|[rec_id payload] dictionary]; [done|].
  rewrite prepared_cons. cbn [fst].
  pose proof (make_row_head rec_id payload) as Hh.
  change (flatten ((rec_id, payload) :: dictionary))
    with (make_row rec_id payload :: flatten dictionary).
  destruct (make_row rec_id payload) as [|[k v] row]; [discriminate|].
  simpl in Hh. injection Hh as ->.
  pose proof (infer_schema_head "record_id" v row (flatten dictionary)) as H.
  destruct (_infer_schema ((("record_id", v) :: row) :: flatten dictionary)).1
    as [|[k0 t0] schema]; [discriminate|].
  rewrite dict_head_set by done. exact H.
Qed.

Lemma prepared_record_id dictionary :
  Dict.get "record_id" (prepared dictionary).1 = Some "TEXT".
Proof.
  destruct dictionary as [|rp dictionary]; [done|].
  rewrite prepared_cons. cbn [fst]. by rewrite dict_get_set, decide_True.
Qed.

(** ** The loaded table *)


(** C4: for a mapping payload the flattened row has exactly the fields
    [record_id] and the payload's keys; [record_id] holds the top-level key
    unless the payload has a field of that name, whose value then wins; every
    other field holds the payload's value. *)
Theorem mapping_payload_row rec_id (p : list (string * pyval)) :
  NoDup (Dict.keys p) ->
  (forall c, c ∈ Dict.keys (make_row rec_id (PDict p)) <->
     c = "record_id" \/ c ∈ Dict.keys p) /\
  NoDup (Dict.keys (make_row rec_id (PDict p))) /\
  head (Dict.keys (make_row rec_id (PDict p))) = Some "record_id" /\
  Dict.get "record_id" (make_row rec_id (PDict p)) =
    Some (default (PStr rec_id) (Dict.get "record_id" p)) /\
  (forall c, c <> "record_id" ->
     Dict.get c (make_row rec_id (PDict p)) = Dict.get c p) /\
  (forall dictionary i,
     dictionary !! i = Some (rec_id, PDict p) ->
     flatten dictionary !! i = Some (make_row rec_id (PDict p))).
Proof.
  intros Hnd. split; [|split; [|split; [|split; [|split]]]].
  - intros c. rewrite make_row_dict, merge_payload_keys. split.
    + intros [Hc|Hc]; [left; by apply list_elem_of_singleton in Hc | by right].
    + intros [->|Hc]; [left; left | by right].
  - rewrite make_row_dict. apply merge_payload_NoDup, NoDup_singleton.
  - apply make_row_head.
  - rewrite make_row_dict, merge_payload_get by done.
    by destruct (Dict.get "record_id" p).
  - intros c Hc. rewrite make_row_dict, merge_payload_get by done.
    destruct (Dict.get c p); [done|]. simpl. by rewrite decide_False.
  - intros dictionary i. apply flatten_lookup.
Qed.


(** ** The [record_id] column *)

Lemma dict_set_notin {V : Type} k (v : V) d :
  k ∉ Dict.keys d -> Dict.set k v d = d ++ [(k, v)].
Proof.
  induction d as [|[k0 v0] d IH]; simpl; intros H; [done|].
  case_decide as E.
  - subst. destruct H. left.
  - f_equal. apply IH. intros Hin. apply H. by right.
Qed.

Lemma dict_setdefault_notin {V : Type} k (v : V) d :
  k ∉ Dict.keys d -> Dict.setdefault k v d = d ++ [(k, v)].
Proof.
  intros H. unfold Dict.setdefault.
  destruct (Dict.get k d) as [x|] eqn:E.
  - destruct H. apply dict_get_Some_keys. by exists x.
  - by apply dict_set_notin.
Qed.

Lemma ensure_record_id_TEXT schema rows :
  Dict.get "record_id" (ensure_record_id schema rows).1 = Some "TEXT".
Proof.
  unfold ensure_record_id.
  destruct (Dict.mem "record_id" schema); cbn [fst];
    by rewrite dict_get_set, decide_True.
Qed.

(** C6: the schema handed to the table creation always has a [record_id]
    column of kind TEXT, and so has the table a run leaves and every schema
    the fix-up returns, whatever kind inference gave it; when no row has a
    [record_id] field, the fix-up appends a TEXT [record_id] column to the
    inferred schema and a null [record_id] field to every row. *)
Theorem record_id_always_TEXT :
  (forall dictionary,
     Dict.get "record_id" (prepared dictionary).1 = Some "TEXT" /\
     forall db_path table_name (w : gmap string (gmap string table)) T,
       loaded db_path table_name dictionary w = Some T ->
       Dict.get "record_id" (tbl_columns T) = Some "TEXT") /\
  (forall schema rows,
     Dict.get "record_id" (ensure_record_id schema rows).1 = Some "TEXT") /\
  (forall rows,
     Forall (fun r => "record_id" ∉ Dict.keys r) rows ->
     ensure_record_id (_infer_schema rows).1 (_infer_schema rows).2 =
       ((_infer_schema rows).1 ++ [("record_id", "TEXT")],
        map (fun r => r ++ [("record_id", PNone)]) (_infer_schema rows).2) /\
     Forall (fun r => Dict.get "record_id" r = Some PNone)
       (ensure_record_id (_infer_schema rows).1 (_infer_schema rows).2).2 /\
     length (ensure_record_id (_infer_schema rows).1 (_infer_schema rows).2).2 =
       length rows).
Proof.
  split; [|split].
  - intros dictionary. split; [apply prepared_record_id|].
    intros db_path table_name w T. rewrite loaded_eq. intros [= <-].
    apply prepared_record_id.
  - apply ensure_record_id_TEXT.
  - intros rows Hrows. rewrite infer_schema_eq. cbn [fst snd].
    assert (Hs : "record_id" ∉ Dict.keys (infer_rows rows []).2).
    { intros H. apply infer_rows_schema_keys in H as [H|(r & Hr & Hc)].
      - inversion H.
      - rewrite Forall_forall in Hrows. by apply (Hrows r). }
    assert (Hr : Forall (fun r => "record_id" ∉ Dict.keys r) (infer_rows rows []).1).
    { apply (Forall_fmap Dict.keys (fun ks => "record_id" ∉ ks)).
      change (Dict.keys <$> ?l) with (map Dict.keys l).
      rewrite infer_rows_keys. by apply Forall_fmap. }
    assert (Heq : ensure_record_id (infer_rows rows []).2 (infer_rows rows []).1 =
      ((infer_rows rows []).2 ++ [("record_id", "TEXT")],
       map (fun r => r ++ [("record_id", PNone)]) (infer_rows rows []).1)).
    { unfold ensure_record_id.
      apply dict_mem_false_keys in Hs as Hm. rewrite Hm.
      rewrite dict_set_notin by done. f_equal.
      apply Forall_fmap_ext_1. eapply Forall_impl; [exact Hr|].
      intros r Hn. by apply dict_setdefault_notin. }
    rewrite Heq. cbn [snd]. split; [done|]. split.
    + apply Forall_fmap. eapply Forall_impl; [exact Hr|].
      intros r Hn. simpl.
      induction r as [|[k v] r IH]; simpl; [done|].
      case_decide as E.
      * subst. destruct Hn. left.
      * apply IH. intros Hin. apply Hn. by right.
    + rewrite length_map.
      pose proof (infer_rows_keys rows []) as Hk.
      apply (f_equal length) in Hk. by rewrite !length_map in Hk.
Qed.

(** C10: [record_id] is the first entry of the schema handed to the table
    creation, and so the first column of the table a run leaves: every
    flattened row starts with [record_id], inference keeps the first key it
    meets first, and the inferred schema either has [record_id] already or
    is empty. *)
Theorem record_id_first_column db_path table_name dictionary
    (w : gmap string (gmap string table)) :
  head (Dict.keys (prepared dictionary).1) = Some "record_id" /\
  Forall (fun row => head (Dict.keys row) = Some "record_id")
    (flatten dictionary) /\
  (Dict.mem "record_id" (_infer_schema (flatten dictionary)).1 = true \/
   (_infer_schema (flatten dictionary)).1 = []) /\
  dict_to_duckdb db_path table_name dictionary =
    with_connection db_path
      (_create_or_replace_table table_name (prepared dictionary).1 ;;;
       _insert_rows table_name (prepared dictionary).2 ;;; con_commit) /\
  (forall T,
     loaded db_path table_name dictionary w = Some T ->
     Dict.keys (tbl_columns T) = Dict.keys (prepared dictionary).1 /\
     head (Dict.keys (tbl_columns T)) = Some "record_id").
Proof.
  split; [apply prepared_head|]. split; [|split; [|split]].
  - unfold flatten. apply Forall_fmap, Forall_forall. intros [k v] _.
    apply make_row_head.
  - destruct dictionary as [|rp dictionary]; [by right|].
    left. apply inferred_has_record_id.
  - apply dict_to_duckdb_eq.
  - intros T. rewrite loaded_eq. intros [= <-]. cbn [tbl_columns].
    split; [done | apply prepared_head].
Qed.

(** ** Empty input and repeated runs *)




(** ** The command line *)

(** C7: when the parsed top-level value is not a mapping, [main] fails with
    [SystemError] (the specification's SchemaViolation) and the world of
    database files is returned untouched. *)
Theorem main_rejects_non_mapping fs a (w : gmap string (gmap string table))
    text v :
  fs (arg_json a) = Some text ->
  json_loads text = Some v ->
  (forall d, v <> PDict d) ->
  main fs a w = (inl SystemError, w).
Proof.
  intros Hfs Hjs Hv. unfold main. rewrite Hfs, Hjs.
  destruct v; try reflexivity. by destruct (Hv d).
Qed.

End Properties.

(** * Further properties of the loader *)

Section Coverage.
Context `{PY : Builtins}.

#[local] Arguments infer_cell : simpl never.

(** ** What inference does to the rows *)

Lemma dict_set_middle {V : Type} k (v v0 : V) l1 l2 :
  k ∉ Dict.keys l1 ->
  Dict.set k v (l1 ++ (k, v0) :: l2) = l1 ++ (k, v) :: l2.
Proof.
  induction l1 as [|[k1 v1] l1 IH]; simpl; intros Hk.
  - by rewrite decide_True.
  - rewrite decide_False by (intros ->; apply Hk; left).
    f_equal. apply IH. intros Hin. apply Hk. by right.
Qed.

Lemma coerce_row_keys row : Dict.keys (coerce_row row) = Dict.keys row.
Proof.
  unfold coerce_row, Dict.keys. rewrite map_map. by apply map_ext.
Qed.

Lemma infer_fold_rows_coerced items : forall pre ct,
  NoDup (Dict.keys (pre ++ items)) ->
  (fold_left infer_cell items (coerce_row pre ++ items, ct)).1 =
    coerce_row (pre ++ items).
Proof.
  induction items as [|[k v] items IH]; intros pre ct Hnd; simpl.
  - by rewrite !app_nil_r.
  - rewrite infer_cell_eq.
    assert (Hk : k ∉ Dict.keys (coerce_row pre)).
    { rewrite coerce_row_keys. unfold Dict.keys in *.
      rewrite map_app in Hnd. apply NoDup_app in Hnd as (_ & Hd & _).
      intros Hin. apply (Hd k Hin). left. }
    rewrite dict_set_middle by done.
    replace (coerce_row pre ++ (k, (_to_cell_value v).1) :: items)
      with (coerce_row (pre ++ [(k, v)]) ++ items)
      by (unfold coerce_row; rewrite map_app, <- app_assoc; reflexivity).
    rewrite IH by (by rewrite <- app_assoc).
    by rewrite <- app_assoc.
Qed.

Lemma infer_row_coerced row ct :
  NoDup (Dict.keys row) -> (infer_row row ct).1 = coerce_row row.
Proof. intros Hnd. apply (infer_fold_rows_coerced row [] ct Hnd). Qed.

Lemma infer_rows_coerced rows : forall ct,
  Forall (fun row => NoDup (Dict.keys row)) rows ->
  (infer_rows rows ct).1 = map coerce_row rows.
Proof.
  induction rows as [|row rows IH]; intros ct Hnd; simpl; [done|].
  apply Forall_cons in Hnd as [Hrow Hrows].
  pose proof (infer_row_coerced row ct Hrow) as H1.
  destruct (infer_row row ct) as [row' ct1].
  specialize (IH ct1 Hrows). destruct (infer_rows rows ct1) as [rest' ct2].
  simpl in *. by subst.
Qed.

Lemma flatten_NoDup dictionary :
  Forall (fun row => NoDup (Dict.keys row)) (flatten dictionary).
Proof.
  unfold flatten. apply Forall_fmap, Forall_forall. intros [k v] _.
  apply make_row_NoDup.
Qed.

Lemma prepared_rows_coerced dictionary :
  (prepared dictionary).2 = map coerce_row (flatten dictionary).
Proof.
  rewrite prepared_rows, infer_schema_eq. cbn [snd].
  apply infer_rows_coerced, flatten_NoDup.
Qed.

Lemma coerce_row_get c row :
  Dict.get c (coerce_row row) = (fun v => (_to_cell_value v).1) <$> Dict.get c row.
Proof.
  induction row as [|[k v] row IH]; simpl; [done|]. by case_decide.
Qed.

Lemma to_cell_value_scalar v : is_scalar (_to_cell_value v).1 = true.
Proof.
  destruct v as [ | [|] | n | x | s | l | d | o]; try reflexivity;
    unfold _to_cell_value; cbn [_is_int _is_float is_str].
  - by destruct (json_dumps (PList l)).
  - by destruct (json_dumps (PDict d)).
Qed.

(** ** The shape of the loaded table *)

Lemma prepared_NoDup dictionary : NoDup (Dict.keys (prepared dictionary).1).
Proof.
  destruct dictionary as [|rp dictionary].
  - rewrite prepared_nil. apply NoDup_singleton.
  - rewrite prepared_cons. cbn [fst]. apply dict_NoDup_set.
    rewrite infer_schema_eq. cbn [fst].
    apply infer_rows_schema_NoDup, NoDup_nil_2.
Qed.

Lemma loaded_rows_eq dictionary :
  stored_rows (prepared dictionary).1 (prepared dictionary).2 =
    (fun row =>
       (fun ct => if bool_decide (ct.1 ∈ first_keys (flatten dictionary))
                  then default PNone (Dict.get ct.1 (coerce_row row))
                  else PNone) <$> (prepared dictionary).1)
    <$> flatten dictionary.
Proof.
  rewrite stored_rows_cells, prepared_first_keys, prepared_rows_coerced.
  change (map ?f ?l) with (f <$> l). by rewrite <- list_fmap_compose.
Qed.

Lemma insert_params_length dictionary :
  length (insert_params (prepared dictionary).2) = length dictionary.
Proof.
  unfold insert_params. rewrite length_map.
  pose proof (prepared_rows_keys dictionary) as Hk.
  apply (f_equal length) in Hk. rewrite !length_map in Hk.
  unfold flatten in Hk. by rewrite length_map in Hk.
Qed.

Lemma prepared_first_keys_NoDup dictionary :
  NoDup (first_keys (prepared dictionary).2).
Proof.
  rewrite prepared_first_keys.
  destruct dictionary as [|[r0 p0] dictionary]; [apply NoDup_nil_2|].
  apply make_row_NoDup.
Qed.

(** X1: the INSERT fits the table the CREATE asks for: the schema's column
    names are distinct, the INSERT lists distinct columns, each of them a
    column of the schema, and it is given one parameter tuple per record,
    each with one value per listed column. *)
Theorem insert_fits_schema dictionary :
  NoDup (Dict.keys (prepared dictionary).1) /\
  NoDup (first_keys (prepared dictionary).2) /\
  (forall c, c ∈ first_keys (prepared dictionary).2 ->
             c ∈ Dict.keys (prepared dictionary).1) /\
  length (insert_params (prepared dictionary).2) = length dictionary /\
  Forall (fun params =>
            length params = length (first_keys (prepared dictionary).2))
    (insert_params (prepared dictionary).2).
Proof.
  split; [apply prepared_NoDup|]. split; [apply prepared_first_keys_NoDup|].
  split; [apply prepared_first_keys_in|].
  split; [apply insert_params_length|].
  unfold insert_params. apply Forall_fmap, Forall_forall.
  intros row _. simpl. by rewrite length_map.
Qed.

(** X2: every parameter handed to the INSERT is null, an integer, a float
    or a string: no boolean, list, dictionary or foreign object reaches the
    engine. *)
Theorem insert_params_scalar dictionary :
  Forall (Forall (fun v => is_scalar v = true))
    (insert_params (prepared dictionary).2).
Proof.
  unfold insert_params. rewrite prepared_rows_coerced.
  apply Forall_fmap, Forall_fmap, Forall_forall.
  intros row _. simpl. apply Forall_fmap, Forall_forall.
  intros c _. simpl. rewrite coerce_row_get.
  destruct (Dict.get c row) as [v|]; [|done].
  apply to_cell_value_scalar.
Qed.

(** ** What each cell holds *)

Lemma loaded_cell dictionary i rec_id payload j c ty :
  dictionary !! i = Some (rec_id, payload) ->
  (prepared dictionary).1 !! j = Some (c, ty) ->
  exists cells,
    stored_rows (prepared dictionary).1 (prepared dictionary).2 !! i = Some cells /\
    cells !! j =
      Some (if bool_decide (c ∈ first_keys (flatten dictionary))
            then match Dict.get c (make_row rec_id payload) with
                 | Some v => (_to_cell_value v).1
                 | None => PNone
                 end
            else PNone).
Proof.
  intros Hi Hj. rewrite loaded_rows_eq. eexists. split.
  - rewrite list_lookup_fmap. by rewrite (flatten_lookup _ _ _ _ Hi).
  - rewrite list_lookup_fmap, Hj. simpl. rewrite coerce_row_get.
    by destruct (Dict.get c (make_row rec_id payload)).
Qed.

(** X3: the parameters of the INSERT are the records' own values: for the
    [k]-th column the INSERT lists, the tuple of the [i]-th record holds the
    cell value of that record's field of this name, and null when the record
    lacks the field. *)
Theorem insert_param_value dictionary i rec_id payload k c :
  dictionary !! i = Some (rec_id, payload) ->
  first_keys (prepared dictionary).2 !! k = Some c ->
  exists params,
    insert_params (prepared dictionary).2 !! i = Some params /\
    params !! k =
      Some (match Dict.get c (make_row rec_id payload) with
            | Some v => (_to_cell_value v).1
            | None => PNone
            end).
Proof.
  intros Hi Hk. unfold insert_params.
  remember (first_keys (prepared dictionary).2) as fk eqn:Hfk. clear Hfk.
  rewrite prepared_rows_coerced.
  change (map ?f ?l) with (f <$> l).
  rewrite !list_lookup_fmap, (flatten_lookup _ _ _ _ Hi). simpl.
  eexists. split; [reflexivity|].
  rewrite list_lookup_fmap, Hk. simpl. rewrite coerce_row_get.
  by destruct (Dict.get c (make_row rec_id payload)).
Qed.

(** X4: a field that the first record's row lacks is a column of the
    table but is never stored: its cell is null in every row, also in the
    rows of records that have the field. *)
Theorem later_field_not_stored db_path table_name dictionary
    (w : gmap string (gmap string table)) T i rec_id payload j c ty :
  loaded db_path table_name dictionary w = Some T ->
  dictionary !! i = Some (rec_id, payload) ->
  tbl_columns T !! j = Some (c, ty) ->
  c ∉ first_keys (flatten dictionary) ->
  exists cells, tbl_rows T !! i = Some cells /\ cells !! j = Some PNone.
Proof.
  rewrite loaded_eq. intros [= <-] Hi Hj Hc. cbn [tbl_columns tbl_rows] in *.
  destruct (loaded_cell _ _ _ _ _ _ _ Hi Hj) as (cells & Hcells & Hcell).
  exists cells. split; [done|]. by rewrite bool_decide_eq_false_2 in Hcell.
Qed.

Lemma merge_payload_get_notin p : forall row c,
  c ∉ Dict.keys p -> Dict.get c (merge_payload p row) = Dict.get c row.
Proof.
  unfold merge_payload.
  induction p as [|[k v] p IH]; intros row c Hc; simpl; [done|].
  rewrite IH by (intros Hin; apply Hc; by right).
  rewrite dict_get_set, decide_False; [done|].
  intros ->. apply Hc. left.
Qed.

Lemma prepared_first_column dictionary :
  (prepared dictionary).1 !! 0 = Some ("record_id", "TEXT").
Proof.
  pose proof (prepared_head dictionary) as Hh.
  pose proof (prepared_record_id dictionary) as Hg.
  destruct (prepared dictionary).1 as [|[k t] schema]; [discriminate|].
  simpl in *. injection Hh as ->. rewrite decide_True in Hg by done.
  by injection Hg as ->.
Qed.

(** X5: the first cell of the row of the [i]-th record is that record's
    key, as text, whenever its payload has no field named [record_id]:
    rows keep the order of the input and each carries its own key. *)
Theorem record_key_first_cell db_path table_name dictionary
    (w : gmap string (gmap string table)) T i rec_id payload :
  loaded db_path table_name dictionary w = Some T ->
  dictionary !! i = Some (rec_id, payload) ->
  (forall p, payload = PDict p -> "record_id" ∉ Dict.keys p) ->
  tbl_columns T !! 0 = Some ("record_id", "TEXT") /\
  exists cells, tbl_rows T !! i = Some cells /\ cells !! 0 = Some (PStr rec_id).
Proof.
  rewrite loaded_eq. intros [= <-] Hi Hp. cbn [tbl_columns tbl_rows].
  pose proof (prepared_first_column dictionary) as Hcol.
  split; [done|].
  destruct (loaded_cell _ _ _ _ _ _ _ Hi Hcol) as (cells & Hcells & Hcell).
  exists cells. split; [done|]. rewrite Hcell. f_equal.
  assert (Hfirst : "record_id" ∈ first_keys (flatten dictionary)).
  { destruct dictionary as [|[r0 p0] dictionary]; [by destruct i|].
    simpl. pose proof (make_row_head r0 p0) as Hh.
    destruct (Dict.keys (make_row r0 p0)); [discriminate|].
    injection Hh as ->. left. }
  rewrite bool_decide_eq_true_2 by done.
  assert (Hget : Dict.get "record_id" (make_row rec_id payload) =
                 Some (PStr rec_id)).
  { destruct payload as [ | | | | | |p| ]; try reflexivity.
    rewrite make_row_dict, merge_payload_get_notin; [done|]. by apply Hp. }
  by rewrite Hget.
Qed.

(** ** The order of the columns *)








(** ** The kind of a column *)

Lemma to_cell_value_kind v :
  (_to_cell_value v).2 =
    if _is_int v then "BIGINT" else if _is_float v then "DOUBLE" else "TEXT".
Proof.
  destruct v as [ | [|] | n | x | s | l | d | o]; try reflexivity;
    unfold _to_cell_value; cbn [_is_int _is_float is_str].
  - by destruct (json_dumps (PList l)).
  - by destruct (json_dumps (PDict d)).
Qed.

Lemma forallb_int_numeric vals :
  forallb _is_int vals = true ->
  forallb (fun v => _is_int v || _is_float v) vals = true.
Proof.
  induction vals as [|v vals IH]; simpl; [done|].
  intros Hv. apply andb_prop in Hv as [-> Hv]. by rewrite IH.
Qed.

Lemma column_kind_snoc vals v :
  _merge_type (column_kind vals) (_to_cell_value v).2 =
    column_kind (vals ++ [v]).
Proof.
  rewrite to_cell_value_kind. unfold column_kind.
  rewrite !forallb_app. cbn [forallb]. rewrite !andb_true_r.
  destruct (forallb _is_int vals) eqn:Ei.
  - rewrite (forallb_int_numeric _ Ei).
    by destruct (_is_int v), (_is_float v).
  - destruct (forallb (fun v0 => _is_int v0 || _is_float v0) vals);
      by destruct (_is_int v), (_is_float v).
Qed.

(** The running kind of a column, as the inner loop updates it. *)
Lemma infer_fold_schema_get items : forall row ct c,
  Dict.get c (fold_left infer_cell items (row, ct)).2 =
    fold_left
      (fun o v => Some (match o with
                        | None => (_to_cell_value v).2
                        | Some p => _merge_type p (_to_cell_value v).2
                        end))
      (field_values c items) (Dict.get c ct).
Proof.
  induction items as [|[k v] items IH]; intros row ct c; simpl; [done|].
  rewrite infer_cell_eq, IH, dict_get_set.
  destruct (decide (k = c)) as [->|Hne].
  - by rewrite decide_True.
  - by rewrite decide_False by congruence.
Qed.

Lemma infer_rows_schema_get rows : forall ct c,
  Dict.get c (infer_rows rows ct).2 =
    fold_left
      (fun o v => Some (match o with
                        | None => (_to_cell_value v).2
                        | Some p => _merge_type p (_to_cell_value v).2
                        end))
      (column_values c rows) (Dict.get c ct).
Proof.
  induction rows as [|row rows IH]; intros ct c; simpl; [done|].
  pose proof (infer_fold_schema_get row row ct c) as H1.
  fold (infer_row row ct) in H1.
  destruct (infer_row row ct) as [row' ct1]. cbn [snd] in H1.
  specialize (IH ct1 c). destruct (infer_rows rows ct1) as [rest' ct2].
  simpl in *. unfold column_values. cbn [map concat].
  by rewrite fold_left_app, <- H1.
Qed.

Lemma fold_kinds_from vals : forall seen,
  fold_left
    (fun o v => Some (match o with
                      | None => (_to_cell_value v).2
                      | Some p => _merge_type p (_to_cell_value v).2
                      end))
    vals (Some (column_kind seen)) =
  Some (column_kind (seen ++ vals)).
Proof.
  induction vals as [|v vals IH]; intros seen; simpl.
  - by rewrite app_nil_r.
  - rewrite column_kind_snoc, IH. by rewrite <- app_assoc.
Qed.

Lemma column_kind_single v : column_kind [v] = (_to_cell_value v).2.
Proof.
  rewrite to_cell_value_kind. unfold column_kind. cbn [forallb].
  rewrite !andb_true_r. by destruct (_is_int v), (_is_float v).
Qed.

Lemma inferred_kind rows c :
  Dict.get c (_infer_schema rows).1 =
    match column_values c rows with
    | [] => None
    | _ :: _ => Some (column_kind (column_values c rows))
    end.
Proof.
  rewrite infer_schema_eq. cbn [fst]. rewrite infer_rows_schema_get.
  destruct (column_values c rows) as [|v vals]; [done|].
  cbn [fold_left Dict.get]. rewrite <- column_kind_single.
  apply fold_kinds_from.
Qed.


(** ** Cells agree with the declared kind *)

Lemma dict_lookup_get {V : Type} (d : list (string * V)) j c t :
  NoDup (Dict.keys d) -> d !! j = Some (c, t) -> Dict.get c d = Some t.
Proof.
  revert j. induction d as [|[k v] d IH]; intros j Hnd Hj; [done|].
  simpl in Hnd. apply NoDup_cons in Hnd as [Hk Hnd].
  destruct j as [|j]; simpl in *.
  - injection Hj as -> ->. by rewrite decide_True.
  - rewrite decide_False; [by eapply IH|].
    intros ->. apply Hk.
    apply list_elem_of_lookup_2 in Hj.
    by apply (list_elem_of_fmap_2 fst) in Hj.
Qed.

Lemma field_values_get c row v :
  Dict.get c row = Some v -> v ∈ field_values c row.
Proof.
  induction row as [|[k v'] row IH]; simpl; [done|].
  destruct (decide (c = k)) as [->|Hne].
  - intros [= ->]. rewrite decide_True by done. left.
  - intros Hg. destruct (decide (k = c)); [congruence|]. by apply IH.
Qed.

Lemma column_values_elem c rows row v :
  row ∈ rows -> v ∈ field_values c row -> v ∈ column_values c rows.
Proof.
  unfold column_values. induction rows as [|r rows IH]; intros Hrow Hv.
  - inversion Hrow.
  - cbn [map concat]. apply elem_of_app.
    apply elem_of_cons in Hrow as [->|Hrow]; [by left | right; by apply IH].
Qed.

Lemma column_kind_BIGINT vals :
  column_kind vals = "BIGINT" -> forallb _is_int vals = true.
Proof.
  unfold column_kind. destruct (forallb _is_int vals); [done|].
  by destruct (forallb _ vals).
Qed.

Lemma column_kind_DOUBLE vals :
  column_kind vals = "DOUBLE" ->
  forallb (fun v => _is_int v || _is_float v) vals = true.
Proof.
  unfold column_kind. destruct (forallb _is_int vals); [done|].
  by destruct (forallb _ vals).
Qed.

Lemma to_cell_value_numeric v :
  _is_int v || _is_float v = true -> (_to_cell_value v).1 = v.
Proof. by destruct v. Qed.

Lemma loaded_cell_origin dictionary cells j c ty v :
  cells ∈ stored_rows (prepared dictionary).1 (prepared dictionary).2 ->
  (prepared dictionary).1 !! j = Some (c, ty) ->
  cells !! j = Some v ->
  v = PNone \/
  exists row v0, row ∈ flatten dictionary /\ Dict.get c row = Some v0 /\
                 v = (_to_cell_value v0).1.
Proof.
  rewrite loaded_rows_eq. intros Hin Hj Hv.
  apply list_elem_of_fmap in Hin as (row & -> & Hrow).
  rewrite list_lookup_fmap, Hj in Hv. simpl in Hv. injection Hv as <-.
  case_bool_decide; [|by left]. rewrite coerce_row_get.
  destruct (Dict.get c row) as [v0|] eqn:E; [|by left].
  right. by exists row, v0.
Qed.

(** X8: cells agree with the declared kind of their column: under a
    BIGINT column every cell is null or an integer, under a DOUBLE column
    null, an integer or a float; a string, or the text of a structured
    value, is only ever handed to a TEXT column. *)
Theorem cells_agree_with_kind db_path table_name dictionary
    (w : gmap string (gmap string table)) T cells j c ty v :
  loaded db_path table_name dictionary w = Some T ->
  tbl_columns T !! j = Some (c, ty) ->
  cells ∈ tbl_rows T ->
  cells !! j = Some v ->
  (ty = "BIGINT" -> v = PNone \/ _is_int v = true) /\
  (ty = "DOUBLE" -> v = PNone \/ _is_int v || _is_float v = true).
Proof.
  rewrite loaded_eq. intros [= <-] Hj Hin Hv. cbn [tbl_columns tbl_rows] in *.
  destruct (loaded_cell_origin _ _ _ _ _ _ Hin Hj Hv)
    as [->|(row & v0 & Hrow & Hget & ->)]; [split; by left|].
  pose proof (dict_lookup_get _ _ _ _ (prepared_NoDup dictionary) Hj) as Hty.
  assert (Hkind : ty = "BIGINT" \/ ty = "DOUBLE" ->
            ty = column_kind (column_values c (flatten dictionary))).
  { intros Hnum. assert (Hc : c <> "record_id").
    { intros ->. rewrite prepared_record_id in Hty.
      injection Hty as <-. by destruct Hnum. }
    assert (Hs : Dict.get c (prepared dictionary).1 =
                 Dict.get c (_infer_schema (flatten dictionary)).1).
    { destruct dictionary as [|rp dictionary]; [inversion Hrow|].
      rewrite prepared_cons. cbn [fst]. by rewrite dict_get_set, decide_False. }
    rewrite Hs, inferred_kind in Hty.
    destruct (column_values c (flatten dictionary)); [done|].
    by injection Hty. }
  assert (Hval : v0 ∈ column_values c (flatten dictionary)).
  { eapply column_values_elem; [exact Hrow|]. by apply field_values_get. }
  apply list_elem_of_In in Hval.
  split; intros ->; right.
  - assert (Hall := column_kind_BIGINT _ (eq_sym (Hkind (or_introl eq_refl)))).
    rewrite forallb_forall in Hall. specialize (Hall _ Hval).
    rewrite to_cell_value_numeric; [done|]. by rewrite Hall.
  - assert (Hall := column_kind_DOUBLE _ (eq_sym (Hkind (or_intror eq_refl)))).
    rewrite forallb_forall in Hall. specialize (Hall _ Hval). cbn beta in Hall.
    by rewrite to_cell_value_numeric.
Qed.

(** ** The outcomes of [main] *)


(** ** Inference is idempotent *)

Lemma to_cell_value_idem v :
  _to_cell_value (_to_cell_value v).1 = _to_cell_value v.
Proof.
  destruct v as [ | [|] | n | x | s | l | d | o]; try reflexivity;
    unfold _to_cell_value at 2 3; cbn [_is_int _is_float is_str].
  - by destruct (json_dumps (PList l)).
  - by destruct (json_dumps (PDict d)).
Qed.

Lemma coerce_row_idem row : coerce_row (coerce_row row) = coerce_row row.
Proof.
  unfold coerce_row. rewrite map_map. apply map_ext. intros [k v]. simpl.
  by rewrite to_cell_value_idem.
Qed.

Lemma infer_fold_schema_coerced items : forall row1 row2 ct,
  (fold_left infer_cell (coerce_row items) (row1, ct)).2 =
    (fold_left infer_cell items (row2, ct)).2.
Proof.
  induction items as [|[k v] items IH]; intros row1 row2 ct; simpl; [done|].
  rewrite !infer_cell_eq, to_cell_value_idem. apply IH.
Qed.

Lemma infer_rows_of_coerced rows : forall ct,
  Forall (fun row => NoDup (Dict.keys row)) rows ->
  infer_rows (map coerce_row rows) ct =
    (map coerce_row rows, (infer_rows rows ct).2).
Proof.
  induction rows as [|row rows IH]; intros ct Hnd; simpl; [done|].
  apply Forall_cons in Hnd as [Hrow Hrows].
  assert (H1 : infer_row (coerce_row row) ct =
               (coerce_row row, (infer_row row ct).2)).
  { apply injective_projections; cbn [fst snd].
    - rewrite infer_row_coerced by (by rewrite coerce_row_keys).
      apply coerce_row_idem.
    - apply infer_fold_schema_coerced. }
  rewrite H1. destruct (infer_row row ct) as [row' ct1]. cbn [snd].
  rewrite (IH ct1 Hrows). by destruct (infer_rows rows ct1).
Qed.

(** X11: inference is idempotent: a cell value classifies as itself with
    the same kind, so running [_infer_schema] on the rows it returned
    gives the same schema and leaves the rows as they are. *)
Theorem infer_schema_idempotent rows :
  Forall (fun row => NoDup (Dict.keys row)) rows ->
  (forall v, _to_cell_value (_to_cell_value v).1 = _to_cell_value v) /\
  _infer_schema (_infer_schema rows).2 = _infer_schema rows.
Proof.
  intros Hnd. split; [apply to_cell_value_idem|].
  rewrite !infer_schema_eq. cbn [snd].
  rewrite (infer_rows_coerced rows [] Hnd).
  by rewrite (infer_rows_of_coerced rows [] Hnd).
Qed.

End Coverage.

(** * Worked inputs *)

(** The tables below are the model's: a cell is the parameter handed to the
    engine, before the engine casts it to the declared type of its column. *)

(** Example 1 of the specification. *)
Example example_site_capacity :
  run_sample [("q1", PDict [("site", PStr "CERN"); ("capacity", PInt 100)])] =
    Some (Table [("record_id", "TEXT"); ("site", "TEXT"); ("capacity", "BIGINT")]
            [[PStr "q1"; PStr "CERN"; PInt 100]]).
Proof. vm_compute. reflexivity. Qed.

(** Example 2 of the specification: [rate] escalates to DOUBLE.  The cell
    of [q1] is the integer handed to the engine, which the DOUBLE column
    then stores as a float. *)
Example example_rate_escalates :
  run_sample [("q1", PDict [("rate", PInt 1)]);
              ("q2", PDict [("rate", PFloat 2.5)])] =
    Some (Table [("record_id", "TEXT"); ("rate", "DOUBLE")]
            [[PStr "q1"; PInt 1]; [PStr "q2"; PFloat 2.5]]).
Proof. vm_compute. reflexivity. Qed.

(** Example 3 of the specification: a list payload is stored as JSON text. *)
Example example_list_payload :
  run_sample [("q1", PList [PInt 1; PInt 2; PInt 3])] =
    Some (Table [("record_id", "TEXT"); ("data", "TEXT")]
            [[PStr "q1"; PStr "[1, 2, 3]"]]).
Proof. vm_compute. reflexivity. Qed.

(** Example 4 of the specification: null then text. *)
Example example_null_then_text :
  run_sample [("q1", PDict [("x", PNone)]); ("q2", PDict [("x", PStr "foo")])] =
    Some (Table [("record_id", "TEXT"); ("x", "TEXT")]
            [[PStr "q1"; PNone]; [PStr "q2"; PStr "foo"]]).
Proof. vm_compute. reflexivity. Qed.

(** A field that the first row lacks is a column of the table, but the
    INSERT does not list it: its value in a later row is not stored. *)
Example example_field_missing_from_first_row :
  run_sample [("q1", PDict [("a", PInt 1)]); ("q2", PDict [("b", PInt 2)])] =
    Some (Table [("record_id", "TEXT"); ("a", "BIGINT"); ("b", "BIGINT")]
            [[PStr "q1"; PInt 1; PNone]; [PStr "q2"; PNone; PNone]]).
Proof. vm_compute. reflexivity. Qed.

(** A payload with its own [record_id]: its value wins, the column stays
    TEXT and first; the integer is what is handed over for it. *)
Example example_payload_record_id :
  run_sample [("q1", PDict [("n", PBool true); ("record_id", PInt 7)])] =
    Some (Table [("record_id", "TEXT"); ("n", "TEXT")]
            [[PInt 7; PStr "true"]]).
Proof. vm_compute. reflexivity. Qed.

(** A foreign object falls back to [str()]. *)
Example example_str_fallback :
  @_to_cell_value sample_builtins (PList [PInt 1; PObject "set"]) =
    (PStr "<object>", "TEXT").
Proof. reflexivity. Qed.


(** C4 at a payload that defines its own [record_id]. *)
Lemma mapping_payload_row_witness :
  NoDup (Dict.keys [("site", PStr "CERN"); ("record_id", PInt 7)]) /\
  Dict.get "record_id"
    (make_row "q1" (PDict [("site", PStr "CERN"); ("record_id", PInt 7)])) =
    Some (PInt 7) /\
  Dict.get "site"
    (make_row "q1" (PDict [("site", PStr "CERN"); ("record_id", PInt 7)])) =
    Some (PStr "CERN").
Proof.
  assert (Hnd : NoDup (Dict.keys [("site", PStr "CERN"); ("record_id", PInt 7)])).
  { apply NoDup_cons. split; [|apply NoDup_singleton].
    intros Hin. apply list_elem_of_singleton in Hin. discriminate. }
  split; [exact Hnd|].
  destruct (mapping_payload_row "q1" _ Hnd) as (_ & _ & _ & Hid & Hother & _).
  split; [exact Hid|]. apply Hother. discriminate.
Defined.


(** C6 at rows that have no [record_id] field. *)
Lemma record_id_always_TEXT_witness :
  Forall (fun r => "record_id" ∉ Dict.keys r) [[("x", PInt 1)]; [("y", PNone)]] /\
  @ensure_record_id
    (@_infer_schema sample_builtins [[("x", PInt 1)]; [("y", PNone)]]).1
    (@_infer_schema sample_builtins [[("x", PInt 1)]; [("y", PNone)]]).2 =
    ([("x", "BIGINT"); ("y", "TEXT"); ("record_id", "TEXT")],
     [[("x", PInt 1); ("record_id", PNone)];
      [("y", PNone); ("record_id", PNone)]]).
Proof.
  assert (Hrows : Forall (fun r : list (string * pyval) => "record_id" ∉ Dict.keys r)
                    [[("x", PInt 1)]; [("y", PNone)]]).
  { repeat constructor; intros Hin; apply list_elem_of_singleton in Hin;
      discriminate. }
  split; [exact Hrows|].
  destruct (@record_id_always_TEXT sample_builtins) as (_ & _ & Hdef).
  destruct (Hdef _ Hrows) as (Heq & _). exact Heq.
Defined.

(** C7 at a top-level JSON array. *)
Lemma main_rejects_non_mapping_witness :
  @main sample_builtins
    (fun path => if decide (path = "in.json") then Some "[1, 2, 3]" else None)
    (Args "in.json" "queuedata.db" "queuedata") ∅ =
    (inl SystemError, ∅).
Proof.
  apply (@main_rejects_non_mapping sample_builtins _ _ _ "[1, 2, 3]"
           (PList [PInt 1; PInt 2; PInt 3])).
  - reflexivity.
  - reflexivity.
  - intros d. discriminate.
Defined.

(** The statements sent for Example 1. *)
Example example_sql_text :
  sql_text (CreateOrReplaceTable "queuedata"
              [("record_id", "TEXT"); ("site", "TEXT"); ("capacity", "BIGINT")]) =
    "CREATE OR REPLACE TABLE " +:+ dquote +:+ "queuedata" +:+ dquote +:+ " (" +:+
    dquote +:+ "record_id" +:+ dquote +:+ " TEXT, " +:+
    dquote +:+ "site" +:+ dquote +:+ " TEXT, " +:+
    dquote +:+ "capacity" +:+ dquote +:+ " BIGINT)" /\
  sql_text (InsertInto "queuedata" ["record_id"; "site"; "capacity"]) =
    "INSERT INTO " +:+ dquote +:+ "queuedata" +:+ dquote +:+ " (" +:+
    dquote +:+ "record_id" +:+ dquote +:+ ", " +:+
    dquote +:+ "site" +:+ dquote +:+ ", " +:+
    dquote +:+ "capacity" +:+ dquote +:+ ") VALUES (?, ?, ?)".
Proof. split; reflexivity. Qed.

(** * Worked inputs for the further properties *)

(** X3 at the [rate] parameter of the second record of [rate_input]. *)
Lemma insert_param_value_witness :
  exists params,
    [[PStr "q1"; PInt 1]; [PStr "q2"; PFloat 2.5]] !! 1 = Some params /\
    params !! 1 = Some (PFloat 2.5).
Proof.
  apply (@insert_param_value sample_builtins rate_input 1 "q2"
           (PDict [("rate", PFloat 2.5)]) 1 "rate").
  - reflexivity.
  - reflexivity.
Defined.

(** X4 at the second record of [mixed_input]: its field [b] is lost. *)
Lemma later_field_not_stored_witness :
  exists cells,
    [[PStr "q1"; PInt 1; PNone]; [PStr "q2"; PNone; PNone]] !! 1 = Some cells /\
    cells !! 2 = Some PNone.
Proof.
  apply (@later_field_not_stored sample_builtins "queuedata.db" "queuedata"
           mixed_input ∅
           (Table [("record_id", "TEXT"); ("a", "BIGINT"); ("b", "BIGINT")]
              [[PStr "q1"; PInt 1; PNone]; [PStr "q2"; PNone; PNone]])
           1 "q2" (PDict [("b", PInt 2)]) 2 "b" "BIGINT").
  - vm_compute. reflexivity.
  - reflexivity.
  - reflexivity.
  - change ("b" ∉ ["record_id"; "a"]). intros Hin.
    repeat (apply elem_of_cons in Hin as [Hin|Hin]; [discriminate|]).
    inversion Hin.
Defined.

(** X5 at the second record of [mixed_input]. *)
Lemma record_key_first_cell_witness :
  [("record_id", "TEXT"); ("a", "BIGINT"); ("b", "BIGINT")] !! 0 =
    Some ("record_id", "TEXT") /\
  exists cells,
    [[PStr "q1"; PInt 1; PNone]; [PStr "q2"; PNone; PNone]] !! 1 = Some cells /\
    cells !! 0 = Some (PStr "q2").
Proof.
  apply (@record_key_first_cell sample_builtins "queuedata.db" "queuedata"
           mixed_input ∅
           (Table [("record_id", "TEXT"); ("a", "BIGINT"); ("b", "BIGINT")]
              [[PStr "q1"; PInt 1; PNone]; [PStr "q2"; PNone; PNone]])
           1 "q2" (PDict [("b", PInt 2)])).
  - vm_compute. reflexivity.
  - reflexivity.
  - intros p [= <-] Hin. apply list_elem_of_singleton in Hin. discriminate.
Defined.

(** X8 at the [rate] cell of the second record of [rate_input]. *)
Lemma cells_agree_with_kind_witness :
  PFloat 2.5 = PNone \/ _is_int (PFloat 2.5) || _is_float (PFloat 2.5) = true.
Proof.
  apply (@cells_agree_with_kind sample_builtins "queuedata.db" "queuedata"
           rate_input ∅
           (Table [("record_id", "TEXT"); ("rate", "DOUBLE")]
              [[PStr "q1"; PInt 1]; [PStr "q2"; PFloat 2.5]])
           [PStr "q2"; PFloat 2.5] 1 "rate" "DOUBLE" (PFloat 2.5)).
  - vm_compute. reflexivity.
  - reflexivity.
  - right. left.
  - reflexivity.
  - reflexivity.
Defined.

(** X11 at a row with a boolean and an integer. *)
Lemma infer_schema_idempotent_witness :
  @_infer_schema sample_builtins
    (@_infer_schema sample_builtins [[("x", PBool true); ("y", PInt 1)]]).2 =
  @_infer_schema sample_builtins [[("x", PBool true); ("y", PInt 1)]].
Proof.
  apply (@infer_schema_idempotent sample_builtins).
  repeat constructor.
  - intros Hin. apply list_elem_of_singleton in Hin. discriminate.
  - intros Hin. inversion Hin.
Defined.
